(** * Xenium modchip (hw/xbox/modchip_xenium.c): flash bank masking and the
      two-register I/O state machine.

    The C functions are embedded as Rocq functions over [Z].  Fixed-width
    unsigned integers are [Z] values with the wrap-around written out
    ([u8], [u16], [u32]); C [bool] is [bool], with the C conversion
    "non-zero is true" written as [to_bool]. *)

From Stdlib Require Import ZArith Bool List String Ascii Lia.
Import ListNotations.

Local Open Scope Z_scope.

(** ** Outcomes of a C call

    [assert] is always live in this code base (the build refuses NDEBUG), so
    a failed assertion ends the call with [Abort].  A function with a
    non-void result whose closing brace is reached without a [return]
    statement delivers no value to its caller: [NoValue]. *)

Inductive outcome (A : Type) : Type :=
| Return (v : A)
| Abort
| NoValue.

Arguments Return {A} v.
Arguments Abort {A}.
Arguments NoValue {A}.

(** ** Machine integers *)

Definition u8 (z : Z) : Z := z mod 2 ^ 8.
Definition u16 (z : Z) : Z := z mod 2 ^ 16.
Definition u32 (z : Z) : Z := z mod 2 ^ 32.

(** Conversion of an integer to C [bool]. *)
Definition to_bool (z : Z) : bool := negb (z =? 0).

(** Promotion of a C [bool] to [int]. *)
Definition of_bool (b : bool) : Z := if b then 1 else 0.

(** ** Flash address masking *)

Module Flash.

(** [mask[i]] on a NUL-terminated C string: the characters of the string,
    then the terminator. *)
Definition char_at (mask : string) (i : Z) : ascii :=
  match String.get (Z.to_nat i) mask with
  | Some c => c
  | None => zero
  end.

(** One iteration of the [for] body of [xenium_mask_flash_address]:
    [Some] is the new value of the local [translation], [None] is the
    failed [assert(false)] of the [default] label. *)
Definition mask_step (mask : string) (i : Z) (translation : Z) : option Z :=
  let bitval := u32 (Z.shiftl 1 (20 - i)) in
  match char_at mask i with
  | "1"%char => Some (Z.lor translation bitval)
  | "0"%char => Some (Z.land translation (u32 (Z.lnot bitval)))
  | "X"%char => Some translation
  | _ => None
  end.

(** [for (int i = ...; i < 3; i++)] with [n] iterations left to run. *)
Fixpoint mask_loop (n : nat) (mask : string) (i : Z) (translation : Z)
  : option Z :=
  match n with
  | O => Some translation
  | S n' =>
      match mask_step mask i translation with
      | Some translation' => mask_loop n' mask (i + 1) translation'
      | None => None
      end
  end.

(** The value of the local [translation] when the loop of
    [xenium_mask_flash_address] is left. *)
Definition mask_translation (address : Z) (mask : string) : option Z :=
  mask_loop 3 mask 0 address.

(** [uint32_t xenium_mask_flash_address(uint32_t address, const char* mask)].
    The body ends after the loop: there is no [return] statement, so the
    local [translation] is dropped. *)
Definition xenium_mask_flash_address (address : Z) (mask : string)
  : outcome Z :=
  match mask_translation address mask with
  | Some _translation => NoValue
  | None => Abort
  end.

(** [uint32_t xenium_translate_flash_address(uint32_t address,
                                            uint8_t bank_control)]. *)
Definition xenium_translate_flash_address (address : Z) (bank_control : Z)
  : outcome Z :=
  match bank_control with
  | 0 => xenium_mask_flash_address address "XXX"
  | 1 => xenium_mask_flash_address address "110"
  | 2 => xenium_mask_flash_address address "10X"
  | 3 => xenium_mask_flash_address address "000"
  | 4 => xenium_mask_flash_address address "001"
  | 5 => xenium_mask_flash_address address "010"
  | 6 => xenium_mask_flash_address address "011"
  | 7 => xenium_mask_flash_address address "00X"
  | 8 => xenium_mask_flash_address address "01X"
  | 9 => xenium_mask_flash_address address "0XX"
  | 10 => xenium_mask_flash_address address "111"
  | _ => Abort
  end.

(** The pattern each [case] label of [xenium_translate_flash_address] passes
    on, as a table. *)
Definition bank_pattern (bank_control : Z) : option string :=
  match bank_control with
  | 0 => Some "XXX"%string
  | 1 => Some "110"%string
  | 2 => Some "10X"%string
  | 3 => Some "000"%string
  | 4 => Some "001"%string
  | 5 => Some "010"%string
  | 6 => Some "011"%string
  | 7 => Some "00X"%string
  | 8 => Some "01X"%string
  | 9 => Some "0XX"%string
  | 10 => Some "111"%string
  | _ => None
  end.

(** What the specification asks of one pattern position: the bit of the
    result at that position, given the bit of the input. *)
Definition pattern_bit (c : ascii) (b : bool) : bool :=
  match c with
  | "0"%char => false
  | "1"%char => true
  | _ => b
  end.

(** Bit [j] of the address the specification asks for: position [i] of the
    pattern governs bit [20 - i], every other bit is the input's. *)
Definition masked_bit (mask : string) (address : Z) (j : Z) : bool :=
  if j =? 20 then pattern_bit (char_at mask 0) (Z.testbit address 20)
  else if j =? 19 then pattern_bit (char_at mask 1) (Z.testbit address 19)
  else if j =? 18 then pattern_bit (char_at mask 2) (Z.testbit address 18)
  else Z.testbit address j.

Definition pattern_char (c : ascii) : bool :=
  match c with
  | "0"%char | "1"%char | "X"%char => true
  | _ => false
  end.

(** A pattern of exactly three characters out of '0', '1', 'X'. *)
Definition valid_pattern (mask : string) : bool :=
  match mask with
  | String a (String b (String c EmptyString)) =>
      pattern_char a && pattern_char b && pattern_char c
  | _ => false
  end.

End Flash.

(** ** The device: register file and I/O handlers *)

Definition XENIUM_REGISTER_BASE : Z := 0xEE.
Definition XENIUM_REGISTER0 : Z := 0.
Definition XENIUM_REGISTER1 : Z := 1.

Section Device.

(** The two leading members of [struct XeniumState] belong to the host
    framework, and so do the two calls that end [xenium_realize]; their
    declarations are outside this file, so they are taken as parameters.
    The framework calls receive the memory region (and the ISA device) and
    hand back their new contents. *)
Variables ISADevice MemoryRegion : Type.
Variable memory_region_init_io : MemoryRegion -> Z -> MemoryRegion.
Variable isa_register_ioport :
  ISADevice -> MemoryRegion -> Z -> ISADevice * MemoryRegion.

Record XeniumState : Type := mkXeniumState {
  dev : ISADevice;
  io : MemoryRegion;
  (* SPI *)
  sck : bool;
  cs : bool;
  mosi : bool;
  miso_1 : bool;           (* pin 1 *)
  miso_4 : bool;           (* pin 4 *)
  led : Z;                 (* unsigned char, XXXXXBGR *)
  bank_control : Z;        (* unsigned short, determines flash address mask *)
  recovery : bool          (* 0 is active *)
}.

(** The values a [struct XeniumState] can hold: [led] is an
    [unsigned char], [bank_control] an [unsigned short]. *)
Definition state_in_range (s : XeniumState) : Prop :=
  0 <= led s < 2 ^ 8 /\ 0 <= bank_control s < 2 ^ 16.

(** [static void xenium_io_write(void *opaque, hwaddr addr, uint64_t val,
                                 unsigned int size)];
    the debug trace written to standard output is not part of the state. *)
Definition xenium_io_write (s : XeniumState) (addr val : Z) (size : Z)
  : outcome XeniumState :=
  match addr with
  | 0 =>
      if Z.shiftr val 3 =? 0 then
        Return (mkXeniumState (dev s) (io s) (sck s) (cs s) (mosi s)
                  (miso_1 s) (miso_4 s)
                  (u8 val)
                  (bank_control s) (recovery s))
      else Abort
  | 1 =>
      if Z.land val (Z.shiftl 1 7) =? 0 then
        Return (mkXeniumState (dev s) (io s)
                  (to_bool (Z.land val (Z.shiftl 1 6)))
                  (to_bool (Z.land val (Z.shiftl 1 5)))
                  (to_bool (Z.land val (Z.shiftl 1 4)))
                  (miso_1 s) (miso_4 s)
                  (led s)
                  (u16 (Z.land val 0xF))
                  (recovery s))
      else Abort
  | _ => Abort
  end.

(** [static uint64_t xenium_io_read(void *opaque, hwaddr addr,
                                    unsigned int size)]. *)
Definition xenium_io_read (s : XeniumState) (addr : Z) (size : Z)
  : outcome Z :=
  match addr with
  | 0 => Return (u32 0x55)
  | 1 =>
      Return (u32 (Z.lor (Z.lor (Z.lor (Z.shiftl (of_bool (recovery s)) 7)
                                       (Z.shiftl (of_bool (miso_1 s)) 5))
                                (Z.shiftl (of_bool (miso_4 s)) 4))
                         (bank_control s)))
  | _ => Abort
  end.

(** [static void xenium_realize(DeviceState *dev, Error **errp)]: the
    default state, then the registration of the two ports 0xEE and 0xEF. *)
Definition xenium_realize (s : XeniumState) : XeniumState :=
  let s1 :=
    mkXeniumState (dev s) (io s) (sck s) (cs s) (mosi s)
      (miso_1 s) (miso_4 s)
      (u8 1)                 (* led: red *)
      (u16 1)                (* bank_control: regular cromwell bootloader *)
      (to_bool 1)            (* recovery: inactive *) in
  let io1 := memory_region_init_io (io s1) 2 in
  let '(dev2, io2) := isa_register_ioport (dev s1) io1 XENIUM_REGISTER_BASE in
  mkXeniumState dev2 io2 (sck s1) (cs s1) (mosi s1)
    (miso_1 s1) (miso_4 s1) (led s1) (bank_control s1) (recovery s1).

(** The memory region is registered with access sizes of exactly one byte
    ([xenium_io_ops.valid]). *)
Definition access_size : Z := 1.

(** Bus traffic seen by the handlers. *)
Inductive access : Type :=
| Read (addr : Z)
| Write (addr val : Z).

(** One access: a read leaves the state as it is and a write goes through
    [xenium_io_write]; a failed assertion in either ends the run. *)
Definition access_step (s : XeniumState) (a : access)
  : outcome XeniumState :=
  match a with
  | Read addr =>
      match xenium_io_read s addr access_size with
      | Return _ => Return s
      | Abort => Abort
      | NoValue => NoValue
      end
  | Write addr val => xenium_io_write s addr val access_size
  end.

Fixpoint run (l : list access) (s : XeniumState) : outcome XeniumState :=
  match l with
  | [] => Return s
  | a :: l' =>
      match access_step s a with
      | Return s' => run l' s'
      | Abort => Abort
      | NoValue => NoValue
      end
  end.

(** The byte the specification gives for a read of register 1. *)
Definition status_byte (s : XeniumState) : Z :=
  Z.lor (Z.lor (Z.lor (Z.shiftl (of_bool (recovery s)) 7)
                      (Z.shiftl (of_bool (miso_1 s)) 5))
               (Z.shiftl (of_bool (miso_4 s)) 4))
        (bank_control s).

(** Bits 3 to 7 of a byte are all zero. *)
Definition bits_3_7_clear (v : Z) : bool :=
  negb (Z.testbit v 3) && negb (Z.testbit v 4) && negb (Z.testbit v 5)
  && negb (Z.testbit v 6) && negb (Z.testbit v 7).

End Device.

Arguments mkXeniumState {ISADevice MemoryRegion}.
Arguments dev {ISADevice MemoryRegion} s : rename.
Arguments io {ISADevice MemoryRegion} s : rename.
Arguments sck {ISADevice MemoryRegion} s : rename.
Arguments cs {ISADevice MemoryRegion} s : rename.
Arguments mosi {ISADevice MemoryRegion} s : rename.
Arguments miso_1 {ISADevice MemoryRegion} s : rename.
Arguments miso_4 {ISADevice MemoryRegion} s : rename.
Arguments led {ISADevice MemoryRegion} s : rename.
Arguments bank_control {ISADevice MemoryRegion} s : rename.
Arguments recovery {ISADevice MemoryRegion} s : rename.
Arguments state_in_range {ISADevice MemoryRegion} s.
Arguments xenium_io_write {ISADevice MemoryRegion} s addr val size.
Arguments xenium_io_read {ISADevice MemoryRegion} s addr size.
Arguments xenium_realize {ISADevice MemoryRegion}
  memory_region_init_io isa_register_ioport s.
Arguments access_step {ISADevice MemoryRegion} s a.
Arguments run {ISADevice MemoryRegion} l s.
Arguments status_byte {ISADevice MemoryRegion} s.

(** ** A concrete device

    The framework members carry no information here, and the framework
    calls hand their arguments back.  The instance memory is zero-filled
    when [xenium_realize] runs. *)

Module Board.

Definition init_io (r : unit) (size : Z) : unit := r.
Definition register_ioport (d r : unit) (base : Z) : unit * unit := (d, r).

Definition zeroed : XeniumState unit unit :=
  mkXeniumState tt tt false false false false false 0 0 false.

Definition attached : XeniumState unit unit :=
  xenium_realize init_io register_ioport zeroed.

(** Bus traffic after attach: select code 11 with all three SPI lines
    high, read the status back, light all three LEDs, read the
    identification byte. *)
Definition traffic : list access :=
  [Write 1 0x7B; Read 1; Write 0 7; Read 0].

(** The state after the first write of [traffic], and after all of it. *)
Definition selected : XeniumState unit unit :=
  mkXeniumState tt tt true true true false false 1 11 true.

Definition after_traffic : XeniumState unit unit :=
  mkXeniumState tt tt true true true false false 7 11 true.

End Board.

(** * Properties *)

Section Properties.

Context {ISADevice MemoryRegion : Type}.
Variable memory_region_init_io : MemoryRegion -> Z -> MemoryRegion.
Variable isa_register_ioport :
  ISADevice -> MemoryRegion -> Z -> ISADevice * MemoryRegion.

Local Abbreviation XeniumState := (XeniumState ISADevice MemoryRegion).
Local Abbreviation xenium_realize :=
  (xenium_realize memory_region_init_io isa_register_ioport).

(** ** Bits of machine integers *)

Lemma range_bits_high (n t j : Z) :
  0 <= t < 2 ^ n -> n <= j -> Z.testbit t j = false.
Proof.
  intros Ht Hj.
  destruct (Z.ltb_spec n 0) as [Hn | Hn].
  - rewrite (Z.pow_neg_r 2 n Hn) in Ht. lia.
  - rewrite <- (Z.mod_small t (2 ^ n) Ht).
    apply Z.mod_pow2_bits_high. lia.
Qed.

Lemma bits_high_range (n t : Z) :
  0 <= n -> (forall j, n <= j -> Z.testbit t j = false) -> 0 <= t < 2 ^ n.
Proof.
  intros Hn Hhigh.
  assert (Heq : t mod 2 ^ n = t).
  { apply Z.bits_inj'. intros j Hj.
    rewrite Z.testbit_mod_pow2 by assumption.
    destruct (Z.ltb_spec j n) as [Hlt | Hge]; simpl.
    - reflexivity.
    - symmetry. apply Hhigh. assumption. }
  rewrite <- Heq. apply Z.mod_pos_bound. apply Z.pow_pos_nonneg; lia.
Qed.

Lemma bitval_bits (k j : Z) :
  0 <= k < 32 -> Z.testbit (u32 (Z.shiftl 1 k)) j = (k =? j).
Proof.
  intros Hk. unfold u32.
  rewrite Z.shiftl_1_l.
  rewrite Z.mod_small.
  - apply Z.pow2_bits_eqb. lia.
  - split.
    + apply Z.pow_nonneg. lia.
    + apply Z.pow_lt_mono_r; lia.
Qed.

Lemma not_bitval_bits (k j : Z) :
  0 <= k < 32 -> 0 <= j ->
  Z.testbit (u32 (Z.lnot (u32 (Z.shiftl 1 k)))) j = (j <? 32) && negb (k =? j).
Proof.
  intros Hk Hj. unfold u32 at 1.
  rewrite Z.testbit_mod_pow2 by lia.
  rewrite Z.lnot_spec by assumption.
  rewrite bitval_bits by assumption.
  reflexivity.
Qed.

(** ** The masking loop *)

Lemma pattern_char_cases (c : ascii) :
  Flash.pattern_char c = true ->
  c = "0"%char \/ c = "1"%char \/ c = "X"%char.
Proof.
  destruct c as [b0 b1 b2 b3 b4 b5 b6 b7].
  destruct b0, b1, b2, b3, b4, b5, b6, b7; simpl; intros H;
    try discriminate H; auto.
Qed.

(** One iteration rewrites bit [20 - i] as the pattern asks and keeps every
    other bit of a 32-bit [translation]. *)
Lemma mask_step_bits (mask : string) (i t : Z) :
  0 <= i <= 2 -> 0 <= t < 2 ^ 32 ->
  Flash.pattern_char (Flash.char_at mask i) = true ->
  exists t',
    Flash.mask_step mask i t = Some t' /\
    forall j, 0 <= j ->
      Z.testbit t' j =
      if j =? 20 - i
      then Flash.pattern_bit (Flash.char_at mask i) (Z.testbit t j)
      else Z.testbit t j.
Proof.
  intros Hi Ht Hc. unfold Flash.mask_step.
  destruct (pattern_char_cases _ Hc) as [E | [E | E]]; rewrite E;
    cbv beta iota zeta.
  - eexists. split; [reflexivity |]. intros j Hj.
    rewrite Z.land_spec, not_bitval_bits by lia.
    rewrite (Z.eqb_sym (20 - i) j).
    destruct (Z.eqb_spec j (20 - i)) as [Ej | Nj]; cbn [negb].
    + rewrite !andb_false_r. reflexivity.
    + rewrite andb_true_r.
      destruct (Z.ltb_spec j 32) as [Hlt | Hge].
      * apply andb_true_r.
      * rewrite andb_false_r. symmetry.
        apply (range_bits_high 32); assumption.
  - eexists. split; [reflexivity |]. intros j Hj.
    rewrite Z.lor_spec, bitval_bits by lia.
    rewrite (Z.eqb_sym (20 - i) j).
    destruct (j =? 20 - i); simpl.
    + apply orb_true_r.
    + apply orb_false_r.
  - eexists. split; [reflexivity |]. intros j Hj.
    destruct (j =? 20 - i); reflexivity.
Qed.

Lemma mask_step_range (mask : string) (i t t' : Z) :
  0 <= i <= 2 -> 0 <= t < 2 ^ 32 ->
  Flash.pattern_char (Flash.char_at mask i) = true ->
  Flash.mask_step mask i t = Some t' ->
  0 <= t' < 2 ^ 32.
Proof.
  intros Hi Ht Hc Hstep.
  destruct (mask_step_bits mask i t Hi Ht Hc) as [t'' [Hs Hbits]].
  rewrite Hs in Hstep. injection Hstep as ->.
  apply bits_high_range; [lia |].
  intros j Hj. rewrite Hbits by lia.
  destruct (Z.eqb_spec j (20 - i)) as [Ej | _]; [lia |].
  apply (range_bits_high 32); assumption.
Qed.

Lemma valid_pattern_chars (mask : string) :
  Flash.valid_pattern mask = true ->
  Flash.pattern_char (Flash.char_at mask 0) = true /\
  Flash.pattern_char (Flash.char_at mask 1) = true /\
  Flash.pattern_char (Flash.char_at mask 2) = true.
Proof.
  destruct mask as [| a [| b [| c [| d rest]]]]; simpl; try discriminate.
  intros H. apply andb_true_iff in H. destruct H as [H Hc2].
  apply andb_true_iff in H. destruct H as [Hc0 Hc1].
  auto.
Qed.

(** When the loop is left, the local [translation] holds the address the
    specification describes. *)
Lemma mask_translation_bits (address : Z) (mask : string) :
  0 <= address < 2 ^ 32 ->
  Flash.valid_pattern mask = true ->
  exists t,
    Flash.mask_translation address mask = Some t /\
    forall j, 0 <= j -> Z.testbit t j = Flash.masked_bit mask address j.
Proof.
  intros Ha Hv.
  destruct (valid_pattern_chars mask Hv) as [Hc0 [Hc1 Hc2]].
  unfold Flash.mask_translation. cbn [Flash.mask_loop].
  destruct (mask_step_bits mask 0 address ltac:(lia) Ha Hc0) as [t0 [S0 B0]].
  pose proof (mask_step_range mask 0 address t0 ltac:(lia) Ha Hc0 S0) as R0.
  rewrite S0. change (0 + 1) with 1.
  destruct (mask_step_bits mask 1 t0 ltac:(lia) R0 Hc1) as [t1 [S1 B1]].
  pose proof (mask_step_range mask 1 t0 t1 ltac:(lia) R0 Hc1 S1) as R1.
  rewrite S1. change (1 + 1) with 2.
  destruct (mask_step_bits mask 2 t1 ltac:(lia) R1 Hc2) as [t2 [S2 B2]].
  rewrite S2.
  exists t2. split; [reflexivity |].
  intros j Hj. unfold Flash.masked_bit.
  rewrite B2, B1, B0 by lia.
  change (20 - 0) with 20. change (20 - 1) with 19. change (20 - 2) with 18.
  destruct (Z.eqb_spec j 20) as [-> | N20]; [reflexivity |].
  destruct (Z.eqb_spec j 19) as [-> | N19]; [reflexivity |].
  destruct (Z.eqb_spec j 18) as [-> | N18]; reflexivity.
Qed.

Lemma masked_bit_range (address t : Z) (mask : string) :
  0 <= address < 2 ^ 24 ->
  (forall j, 0 <= j -> Z.testbit t j = Flash.masked_bit mask address j) ->
  0 <= t < 2 ^ 24.
Proof.
  intros Ha Hbits.
  apply bits_high_range; [lia |].
  intros j Hj. rewrite Hbits by lia. unfold Flash.masked_bit.
  destruct (Z.eqb_spec j 20); [lia |].
  destruct (Z.eqb_spec j 19); [lia |].
  destruct (Z.eqb_spec j 18); [lia |].
  apply (range_bits_high 24); assumption.
Qed.

Lemma mask_flash_address_of_translation (address : Z) (mask : string) (t : Z) :
  Flash.mask_translation address mask = Some t ->
  Flash.xenium_mask_flash_address address mask = NoValue.
Proof.
  intros Ht. unfold Flash.xenium_mask_flash_address. rewrite Ht. reflexivity.
Qed.

Lemma bank_cases (bank_control : Z) :
  0 <= bank_control <= 10 ->
  In bank_control [0; 1; 2; 3; 4; 5; 6; 7; 8; 9; 10].
Proof.
  intros H. simpl.
  assert (bank_control = 0 \/ bank_control = 1 \/ bank_control = 2 \/
          bank_control = 3 \/ bank_control = 4 \/ bank_control = 5 \/
          bank_control = 6 \/ bank_control = 7 \/ bank_control = 8 \/
          bank_control = 9 \/ bank_control = 10) as C by lia.
  intuition.
Qed.

(** Every defined bank hands its table pattern to the masking function. *)
Lemma translate_uses_pattern (address bank_control : Z) :
  0 <= bank_control <= 10 ->
  exists pattern,
    Flash.bank_pattern bank_control = Some pattern /\
    Flash.valid_pattern pattern = true /\
    Flash.xenium_translate_flash_address address bank_control =
    Flash.xenium_mask_flash_address address pattern.
Proof.
  intros H. apply bank_cases in H. simpl in H.
  repeat (destruct H as [<- | H];
          [eexists; split; [reflexivity | split; reflexivity] |]).
  contradiction.
Qed.

(** C1 (as the code has it): for a 24-bit address and a pattern of three
    characters out of '0', '1', 'X', the loop of xenium_mask_flash_address
    leaves in its local [translation] the 24-bit address whose bit 20 - i is
    cleared, set or kept as pattern[i] says and whose other bits are the
    input's; the function then reaches its closing brace without a return
    statement, so the call delivers no value. *)
Theorem mask_flash_address_drops_translation (address : Z) (mask : string) :
  0 <= address < 2 ^ 24 ->
  Flash.valid_pattern mask = true ->
  (exists t,
      Flash.mask_translation address mask = Some t /\
      0 <= t < 2 ^ 24 /\
      forall j, 0 <= j -> Z.testbit t j = Flash.masked_bit mask address j) /\
  Flash.xenium_mask_flash_address address mask = NoValue.
Proof.
  intros Ha Hv.
  destruct (mask_translation_bits address mask ltac:(lia) Hv) as [t [Ht Hb]].
  split.
  - exists t. split; [assumption |]. split; [| assumption].
    apply (masked_bit_range address t mask); assumption.
  - apply (mask_flash_address_of_translation address mask t). assumption.
Qed.

(** C2 (as the code has it): for a 24-bit address and a bank-control code
    from 0 to 10, xenium_translate_flash_address passes the bank's table
    pattern to xenium_mask_flash_address, whose loop computes the address
    rewritten in bits 20-18 only (the input itself for bank 0); because the
    masking function has no return statement, the translation delivers no
    value. *)
Theorem translate_flash_address_no_value (address bank_control : Z) :
  0 <= address < 2 ^ 24 ->
  0 <= bank_control <= 10 ->
  (exists pattern t,
      Flash.bank_pattern bank_control = Some pattern /\
      Flash.mask_translation address pattern = Some t /\
      (forall j, 0 <= j ->
                 Z.testbit t j = Flash.masked_bit pattern address j) /\
      (bank_control = 0 -> t = address)) /\
  Flash.xenium_translate_flash_address address bank_control = NoValue.
Proof.
  intros Ha Hb.
  destruct (translate_uses_pattern address bank_control Hb)
    as [pattern [Hp [Hv Hcall]]].
  destruct (mask_translation_bits address pattern ltac:(lia) Hv)
    as [t [Ht Hbits]].
  split.
  - exists pattern, t. repeat split; try assumption.
    intros ->. injection Hp as <-.
    apply Z.bits_inj'. intros j Hj. rewrite Hbits by assumption.
    unfold Flash.masked_bit.
    destruct (Z.eqb_spec j 20) as [-> | _]; [reflexivity |].
    destruct (Z.eqb_spec j 19) as [-> | _]; [reflexivity |].
    destruct (Z.eqb_spec j 18) as [-> | _]; reflexivity.
  - rewrite Hcall.
    apply (mask_flash_address_of_translation address pattern t). assumption.
Qed.

(** Any code above the last [case] label reaches [default: assert(false)]. *)
Lemma translate_default_label (address bank_control : Z) :
  10 < bank_control ->
  Flash.xenium_translate_flash_address address bank_control = Abort.
Proof.
  intros H.
  destruct bank_control as [| p | p]; [lia | | lia].
  do 4 (try (destruct p as [p | p |]; try lia; try reflexivity)).
Qed.

(** C3: for every address, xenium_translate_flash_address called with a
    bank-control code from 11 to 15 ends in the failed assertion of its
    default label; it produces no address. *)
Theorem translate_undefined_bank_aborts (address bank_control : Z) :
  11 <= bank_control <= 15 ->
  Flash.xenium_translate_flash_address address bank_control = Abort.
Proof.
  intros H. apply translate_default_label. lia.
Qed.

(** ** Register decoding *)

Lemma land_bit (v k : Z) :
  0 <= k -> Z.land v (Z.shiftl 1 k) = if Z.testbit v k then 2 ^ k else 0.
Proof.
  intros Hk. rewrite Z.shiftl_1_l.
  apply Z.bits_inj'. intros j Hj.
  rewrite Z.land_spec, Z.pow2_bits_eqb by assumption.
  destruct (Z.eqb_spec k j) as [<- | N].
  - rewrite andb_true_r.
    destruct (Z.testbit v k) eqn:E.
    + symmetry. apply Z.pow2_bits_true. assumption.
    + symmetry. apply Z.bits_0.
  - rewrite andb_false_r.
    destruct (Z.testbit v k).
    + symmetry. apply Z.pow2_bits_false. assumption.
    + symmetry. apply Z.bits_0.
Qed.

(** [flag = val & (1 << k)] stores bit [k] of [val]. *)
Lemma to_bool_land_bit (v k : Z) :
  0 <= k -> to_bool (Z.land v (Z.shiftl 1 k)) = Z.testbit v k.
Proof.
  intros Hk. rewrite land_bit by assumption. unfold to_bool.
  destruct (Z.testbit v k).
  - assert (0 < 2 ^ k) by (apply Z.pow_pos_nonneg; lia).
    destruct (Z.eqb_spec (2 ^ k) 0); [lia | reflexivity].
  - reflexivity.
Qed.

Lemma land_bit_eqb (v k : Z) :
  0 <= k -> (Z.land v (Z.shiftl 1 k) =? 0) = negb (Z.testbit v k).
Proof.
  intros Hk. rewrite <- to_bool_land_bit by assumption.
  unfold to_bool. rewrite negb_involutive. reflexivity.
Qed.

Lemma low_nibble_range (v : Z) : 0 <= Z.land v 0xF < 16.
Proof.
  change 0xF with (Z.ones 4). rewrite Z.land_ones by lia.
  apply Z.mod_pos_bound. reflexivity.
Qed.

Lemma u16_low_nibble (v : Z) : u16 (Z.land v 0xF) = Z.land v 0xF.
Proof.
  unfold u16. apply Z.mod_small.
  pose proof (low_nibble_range v) as H. change (2 ^ 16) with 65536. lia.
Qed.

Lemma shiftr_bit (v k : Z) :
  Z.shiftr v 3 = 0 -> 3 <= k -> Z.testbit v k = false.
Proof.
  intros H0 Hk.
  replace k with (k - 3 + 3) by lia.
  rewrite <- Z.shiftr_spec by lia.
  rewrite H0. apply Z.bits_0.
Qed.

(** The guard [(val >> 3) == 0] on a byte: bits 3 to 7 are all zero. *)
Lemma shiftr3_bits (v : Z) :
  0 <= v < 2 ^ 8 -> (Z.shiftr v 3 =? 0) = bits_3_7_clear v.
Proof.
  intros Hv. unfold bits_3_7_clear.
  destruct (Z.eqb_spec (Z.shiftr v 3) 0) as [E | N].
  - rewrite !(shiftr_bit v _ E) by lia. reflexivity.
  - symmetry. apply not_true_is_false. intros Hclear. apply N.
    repeat (apply andb_true_iff in Hclear;
            destruct Hclear as [Hclear ?]).
    repeat match goal with
           | H : negb _ = true |- _ => apply negb_true_iff in H
           end.
    apply Z.bits_inj'. intros j Hj.
    rewrite Z.shiftr_spec, Z.bits_0 by assumption.
    assert (j = 0 \/ j = 1 \/ j = 2 \/ j = 3 \/ j = 4 \/ 8 <= j + 3)
      as [-> | [-> | [-> | [-> | [-> | Hhi]]]]] by lia;
      try assumption.
    apply (range_bits_high 8); assumption.
Qed.

(** C4: a write of a byte v to register 0 succeeds, storing v into led, if
    and only if bits 3-7 of v are all zero; with any of those bits set the
    write ends in a failed assertion. *)
Theorem write_register0_led (s : XeniumState) (v size : Z) :
  0 <= v < 2 ^ 8 ->
  ((exists s', xenium_io_write s XENIUM_REGISTER0 v size = Return s' /\
               led s' = v)
   <-> bits_3_7_clear v = true) /\
  (bits_3_7_clear v = false ->
   xenium_io_write s XENIUM_REGISTER0 v size = Abort).
Proof.
  intros Hv. unfold xenium_io_write, XENIUM_REGISTER0.
  rewrite (shiftr3_bits v Hv).
  destruct (bits_3_7_clear v); split.
  - split; [reflexivity |]. intros _.
    eexists. split; [reflexivity |].
    cbn [led]. unfold u8. apply Z.mod_small. assumption.
  - discriminate.
  - split; [| discriminate].
    intros [s' [H _]]. discriminate H.
  - reflexivity.
Qed.

(** C5: a write of a byte v to register 1 ends in a failed assertion if and
    only if bit 7 of v is set; otherwise it stores bit 6 into sck, bit 5
    into cs, bit 4 into mosi and v & 0xF into bank_control, whatever that
    code is: codes 11-15 are stored, and it is the translation called with
    the stored code that fails. *)
Theorem write_register1_fields (s : XeniumState) (v size : Z) :
  0 <= v < 2 ^ 8 ->
  (xenium_io_write s XENIUM_REGISTER1 v size = Abort
   <-> Z.testbit v 7 = true) /\
  (Z.testbit v 7 = false ->
   exists s',
     xenium_io_write s XENIUM_REGISTER1 v size = Return s' /\
     sck s' = Z.testbit v 6 /\
     cs s' = Z.testbit v 5 /\
     mosi s' = Z.testbit v 4 /\
     bank_control s' = Z.land v 0xF /\
     (11 <= Z.land v 0xF <= 15 ->
      forall address,
        Flash.xenium_translate_flash_address address (bank_control s')
        = Abort)).
Proof.
  intros Hv. unfold xenium_io_write, XENIUM_REGISTER1.
  rewrite land_bit_eqb by lia.
  destruct (Z.testbit v 7); cbn [negb]; split.
  - split; reflexivity.
  - discriminate.
  - split; discriminate.
  - intros _. eexists. split; [reflexivity |].
    cbn [sck cs mosi bank_control].
    rewrite !to_bool_land_bit by lia.
    rewrite u16_low_nibble.
    repeat split.
    intros Hcode address.
    apply translate_default_label. lia.
Qed.

(** C6: a read of register 0 returns the identification constant 0x55 in
    every state of the device, whatever led (or any other field) holds. *)
Theorem read_register0_constant (s : XeniumState) (size : Z) :
  xenium_io_read s XENIUM_REGISTER0 size = Return 0x55.
Proof. reflexivity. Qed.

(** ** The status byte *)

Lemma flag_bits_high (b : bool) (n j : Z) :
  0 <= n -> n < j -> Z.testbit (Z.shiftl (of_bool b) n) j = false.
Proof.
  intros Hn Hj. rewrite Z.shiftl_spec by lia.
  apply (range_bits_high 1); [| lia].
  destruct b; simpl; lia.
Qed.

Lemma status_byte_bits_high (s : XeniumState) (n j : Z) :
  0 <= bank_control s < 2 ^ n -> 8 <= n <= j ->
  Z.testbit (status_byte s) j = false.
Proof.
  intros Hb Hj. unfold status_byte.
  rewrite !Z.lor_spec, !flag_bits_high by lia.
  apply (range_bits_high n); [assumption | lia].
Qed.

Lemma read_register1_status (s : XeniumState) (size : Z) :
  0 <= bank_control s < 2 ^ 16 ->
  xenium_io_read s XENIUM_REGISTER1 size = Return (status_byte s).
Proof.
  intros Hb. unfold xenium_io_read, XENIUM_REGISTER1.
  fold (status_byte s). f_equal. unfold u32. apply Z.mod_small.
  apply bits_high_range; [lia |].
  intros j Hj. apply (status_byte_bits_high s 16); [assumption | lia].
Qed.

(** C7: in every state of the device a read of register 1 returns
    (recovery << 7) | (miso_1 << 5) | (miso_4 << 4) | bank_control; after a
    write that sets bank_control to 5, with recovery set and miso_1, miso_4
    clear, the read yields 0x85. *)
Theorem read_register1_composition (s : XeniumState) (size : Z) :
  state_in_range s ->
  xenium_io_read s XENIUM_REGISTER1 size = Return (status_byte s) /\
  (forall v s',
      xenium_io_write s XENIUM_REGISTER1 v size = Return s' ->
      Z.land v 0xF = 5 ->
      recovery s = true -> miso_1 s = false -> miso_4 s = false ->
      xenium_io_read s' XENIUM_REGISTER1 size = Return 0x85).
Proof.
  intros [_ Hb]. split.
  - apply read_register1_status. assumption.
  - intros v s' Hw H5 Hr H1 H4.
    unfold xenium_io_write, XENIUM_REGISTER1 in Hw.
    destruct (Z.land v (Z.shiftl 1 7) =? 0); [| discriminate Hw].
    injection Hw as <-.
    unfold xenium_io_read, XENIUM_REGISTER1.
    cbn [recovery miso_1 miso_4 bank_control].
    rewrite Hr, H1, H4, H5. reflexivity.
Qed.

Lemma realize_bank_control (s : XeniumState) :
  bank_control (xenium_realize s) = 1 /\ led (xenium_realize s) = 1.
Proof.
  unfold xenium_realize. cbn [dev io].
  destruct (isa_register_ioport _ _ _) as [dev2 io2].
  split; reflexivity.
Qed.

(** C8: xenium_realize sets bank_control to 1, recovery to true and led to
    1, and writes no other field of the register file. *)
Theorem realize_defaults (s : XeniumState) :
  bank_control (xenium_realize s) = 1 /\
  recovery (xenium_realize s) = true /\
  led (xenium_realize s) = 1 /\
  sck (xenium_realize s) = sck s /\
  cs (xenium_realize s) = cs s /\
  mosi (xenium_realize s) = mosi s /\
  miso_1 (xenium_realize s) = miso_1 s /\
  miso_4 (xenium_realize s) = miso_4 s.
Proof.
  unfold xenium_realize. cbn [dev io].
  destruct (isa_register_ioport _ _ _) as [dev2 io2].
  repeat split.
Qed.

(** C9: an accepted write to register 1 changes only sck, cs, mosi and
    bank_control, leaving led, recovery, miso_1 and miso_4 (and the
    framework members) as they were; an accepted write to register 0
    changes only led. *)
Theorem write_frame (s s' : XeniumState) (v size : Z) :
  (xenium_io_write s XENIUM_REGISTER1 v size = Return s' ->
   led s' = led s /\ recovery s' = recovery s /\
   miso_1 s' = miso_1 s /\ miso_4 s' = miso_4 s /\
   dev s' = dev s /\ io s' = io s) /\
  (xenium_io_write s XENIUM_REGISTER0 v size = Return s' ->
   sck s' = sck s /\ cs s' = cs s /\ mosi s' = mosi s /\
   miso_1 s' = miso_1 s /\ miso_4 s' = miso_4 s /\
   bank_control s' = bank_control s /\ recovery s' = recovery s /\
   dev s' = dev s /\ io s' = io s).
Proof.
  unfold xenium_io_write, XENIUM_REGISTER1, XENIUM_REGISTER0. split.
  - destruct (Z.land v (Z.shiftl 1 7) =? 0); [| discriminate].
    intros H. injection H as <-. repeat split.
  - destruct (Z.shiftr v 3 =? 0); [| discriminate].
    intros H. injection H as <-. repeat split.
Qed.

(** ** Reachable states *)

Lemma write_bank_control_nibble (s s' : XeniumState) (addr val size : Z) :
  0 <= bank_control s < 16 ->
  xenium_io_write s addr val size = Return s' ->
  0 <= bank_control s' < 16.
Proof.
  intros Hb. unfold xenium_io_write.
  destruct addr as [| [p | p |] | p]; try discriminate.
  - destruct (Z.shiftr val 3 =? 0); [| discriminate].
    intros H. injection H as <-. assumption.
  - destruct (Z.land val (Z.shiftl 1 7) =? 0); [| discriminate].
    intros H. injection H as <-. cbn [bank_control].
    rewrite u16_low_nibble. apply low_nibble_range.
Qed.

Lemma access_step_nibble (s s' : XeniumState) (a : access) :
  0 <= bank_control s < 16 ->
  access_step s a = Return s' ->
  0 <= bank_control s' < 16.
Proof.
  intros Hb. destruct a as [addr | addr val]; simpl.
  - destruct (xenium_io_read s addr access_size); try discriminate.
    intros H. injection H as <-. assumption.
  - apply write_bank_control_nibble. assumption.
Qed.

Lemma run_nibble (l : list access) :
  forall s s' : XeniumState,
    0 <= bank_control s < 16 ->
    run l s = Return s' ->
    0 <= bank_control s' < 16.
Proof.
  induction l as [| a l IH]; intros s s' Hb; simpl.
  - intros H. injection H as <-. assumption.
  - destruct (access_step s a) as [s1 | |] eqn:E; try discriminate.
    apply IH. apply (access_step_nibble s s1 a); assumption.
Qed.

Lemma nibble_cases (x : Z) :
  0 <= x < 16 ->
  In x [0; 1; 2; 3; 4; 5; 6; 7; 8; 9; 10; 11; 12; 13; 14; 15].
Proof.
  intros H. simpl.
  assert (x = 0 \/ x = 1 \/ x = 2 \/ x = 3 \/ x = 4 \/ x = 5 \/ x = 6 \/
          x = 7 \/ x = 8 \/ x = 9 \/ x = 10 \/ x = 11 \/ x = 12 \/
          x = 13 \/ x = 14 \/ x = 15) as C by lia.
  intuition.
Qed.

(** With a 4-bit code the fields of the status byte do not overlap. *)
Lemma status_byte_nibble (s : XeniumState) :
  0 <= bank_control s < 16 ->
  status_byte s =
    128 * of_bool (recovery s) + 32 * of_bool (miso_1 s)
    + 16 * of_bool (miso_4 s) + bank_control s /\
  Z.land (status_byte s) 0xF = bank_control s /\
  Z.testbit (status_byte s) 6 = false.
Proof.
  intros Hb. unfold status_byte.
  apply nibble_cases in Hb. simpl in Hb.
  destruct (recovery s), (miso_1 s), (miso_4 s);
    repeat (destruct Hb as [<- | Hb]; [repeat split |]);
    contradiction.
Qed.

(** C10: from the state xenium_realize leaves, after any sequence of
    register reads and accepted register writes, bank_control is below 16;
    so a read of register 1 carries bank_control exactly in bits 3-0 (the
    flags sit above it without overlap), the value fits a byte, and its
    bit 6 is zero. *)
Theorem reachable_bank_control_nibble
  (s0 s : XeniumState) (l : list access) (size : Z) :
  run l (xenium_realize s0) = Return s ->
  0 <= bank_control s < 16 /\
  exists v,
    xenium_io_read s XENIUM_REGISTER1 size = Return v /\
    v = 128 * of_bool (recovery s) + 32 * of_bool (miso_1 s)
        + 16 * of_bool (miso_4 s) + bank_control s /\
    Z.land v 0xF = bank_control s /\
    Z.testbit v 6 = false /\
    0 <= v < 2 ^ 8.
Proof.
  intros Hrun.
  assert (Hb : 0 <= bank_control s < 16).
  { apply (run_nibble l (xenium_realize s0) s); [| assumption].
    destruct (realize_bank_control s0) as [-> _]. lia. }
  split; [assumption |].
  exists (status_byte s).
  destruct (status_byte_nibble s Hb) as [Hsum [Hlow Hbit6]].
  split; [apply read_register1_status; lia |].
  split; [assumption |].
  split; [assumption |].
  split; [assumption |].
  rewrite Hsum.
  destruct (recovery s), (miso_1 s), (miso_4 s); simpl of_bool; lia.
Qed.

(** ** Further properties of the masking loop *)

Lemma mask_step_defined (mask : string) (i t : Z) :
  match Flash.mask_step mask i t with Some _ => true | None => false end
  = Flash.pattern_char (Flash.char_at mask i).
Proof.
  unfold Flash.mask_step.
  destruct (Flash.char_at mask i) as [b0 b1 b2 b3 b4 b5 b6 b7].
  destruct b0, b1, b2, b3, b4, b5, b6, b7; reflexivity.
Qed.

(** X1: whatever the address, xenium_mask_flash_address ends in the failed
    assertion exactly when one of mask[0], mask[1], mask[2] is not '0', '1'
    or 'X' (the terminator of a shorter string included); otherwise it
    reaches its closing brace.  It never returns a value, and characters
    after the third are not looked at. *)
Theorem mask_flash_address_outcome (address : Z) (mask : string) :
  Flash.xenium_mask_flash_address address mask =
  if Flash.pattern_char (Flash.char_at mask 0)
     && Flash.pattern_char (Flash.char_at mask 1)
     && Flash.pattern_char (Flash.char_at mask 2)
  then NoValue else Abort.
Proof.
  unfold Flash.xenium_mask_flash_address, Flash.mask_translation.
  cbn [Flash.mask_loop].
  rewrite <- (mask_step_defined mask 0 address).
  destruct (Flash.mask_step mask 0 address) as [t0 |]; [| reflexivity].
  change (0 + 1) with 1.
  rewrite <- (mask_step_defined mask 1 t0).
  destruct (Flash.mask_step mask 1 t0) as [t1 |]; [| reflexivity].
  change (1 + 1) with 2.
  rewrite <- (mask_step_defined mask 2 t1).
  destruct (Flash.mask_step mask 2 t1) as [t2 |]; reflexivity.
Qed.


Lemma pattern_bit_idempotent (c : ascii) (b : bool) :
  Flash.pattern_bit c (Flash.pattern_bit c b) = Flash.pattern_bit c b.
Proof.
  destruct c as [b0 b1 b2 b3 b4 b5 b6 b7].
  destruct b0, b1, b2, b3, b4, b5, b6, b7; reflexivity.
Qed.

Lemma masked_bit_range32 (address t : Z) (mask : string) :
  0 <= address < 2 ^ 32 ->
  (forall j, 0 <= j -> Z.testbit t j = Flash.masked_bit mask address j) ->
  0 <= t < 2 ^ 32.
Proof.
  intros Ha Hbits.
  apply bits_high_range; [lia |].
  intros j Hj. rewrite Hbits by lia. unfold Flash.masked_bit.
  destruct (Z.eqb_spec j 20); [lia |].
  destruct (Z.eqb_spec j 19); [lia |].
  destruct (Z.eqb_spec j 18); [lia |].
  apply (range_bits_high 32); assumption.
Qed.

(** X3: for every 32-bit address and valid pattern, the value the masking
    loop computes is again a 32-bit value, and masking it once more with the
    same pattern leaves it as it is. *)
Theorem mask_translation_idempotent (address : Z) (mask : string) :
  0 <= address < 2 ^ 32 ->
  Flash.valid_pattern mask = true ->
  exists t,
    Flash.mask_translation address mask = Some t /\
    0 <= t < 2 ^ 32 /\
    Flash.mask_translation t mask = Some t.
Proof.
  intros Ha Hv.
  destruct (mask_translation_bits address mask Ha Hv) as [t [Ht Hb]].
  pose proof (masked_bit_range32 address t mask Ha Hb) as Hr.
  destruct (mask_translation_bits t mask Hr Hv) as [t' [Ht' Hb']].
  exists t. split; [assumption |]. split; [assumption |].
  rewrite Ht'. f_equal.
  apply Z.bits_inj'. intros j Hj.
  rewrite Hb', Hb by assumption.
  unfold Flash.masked_bit.
  rewrite !Hb by lia. unfold Flash.masked_bit.
  destruct (Z.eqb_spec j 20) as [-> | N20];
    [apply pattern_bit_idempotent |].
  destruct (Z.eqb_spec j 19) as [-> | N19];
    [apply pattern_bit_idempotent |].
  destruct (Z.eqb_spec j 18) as [-> | N18];
    [apply pattern_bit_idempotent | reflexivity].
Qed.

(** ** Further properties of the register handlers *)

(** X4: an access to any register index other than 0 and 1 ends in a failed
    assertion, for writes and for reads alike. *)
Theorem unknown_register_aborts (s : XeniumState) (addr val size : Z) :
  addr <> XENIUM_REGISTER0 -> addr <> XENIUM_REGISTER1 ->
  xenium_io_write s addr val size = Abort /\
  xenium_io_read s addr size = Abort.
Proof.
  unfold XENIUM_REGISTER0, XENIUM_REGISTER1. intros H0 H1.
  destruct addr as [| [p | p |] | p]; try congruence; split; reflexivity.
Qed.

Lemma run_invariant (P : XeniumState -> Prop) :
  (forall s s' a, P s -> access_step s a = Return s' -> P s') ->
  forall (l : list access) (s s' : XeniumState),
    P s -> run l s = Return s' -> P s'.
Proof.
  intros Hstep l. induction l as [| a l IH]; intros s s' HP; simpl.
  - intros H. injection H as <-. assumption.
  - destruct (access_step s a) as [s1 | |] eqn:E; try discriminate.
    apply IH. apply (Hstep s s1 a); assumption.
Qed.

Lemma shiftr3_zero_range (val : Z) : Z.shiftr val 3 = 0 -> 0 <= val < 8.
Proof.
  rewrite Z.shiftr_div_pow2 by lia. change (2 ^ 3) with 8.
  intros H. apply Z.div_small_iff in H; lia.
Qed.

Lemma write_led_range (s s' : XeniumState) (addr val size : Z) :
  0 <= led s < 8 ->
  xenium_io_write s addr val size = Return s' ->
  0 <= led s' < 8.
Proof.
  intros Hl. unfold xenium_io_write.
  destruct addr as [| [p | p |] | p]; try discriminate.
  - destruct (Z.eqb_spec (Z.shiftr val 3) 0) as [E | N]; [| discriminate].
    intros H. injection H as <-. cbn [led].
    apply shiftr3_zero_range in E.
    unfold u8. rewrite Z.mod_small; lia.
  - destruct (Z.land val (Z.shiftl 1 7) =? 0); [| discriminate].
    intros H. injection H as <-. assumption.
Qed.

Lemma access_step_read (s s' : XeniumState) (addr : Z) :
  access_step s (Read addr) = Return s' -> s' = s.
Proof.
  simpl. destruct (xenium_io_read s addr access_size); try discriminate.
  intros H. injection H as <-. reflexivity.
Qed.

(** X5: from the state xenium_realize leaves, after any sequence of register
    reads and accepted register writes (with any 64-bit write values), led
    holds a value below 8, so only the three colour bits are ever set. *)
Theorem reachable_led_three_bits
  (s0 s : XeniumState) (l : list access) :
  run l (xenium_realize s0) = Return s ->
  0 <= led s < 8 /\ state_in_range s.
Proof.
  intros Hrun.
  assert (Hl : 0 <= led s < 8).
  { apply (run_invariant (fun x => 0 <= led x < 8))
      with (l := l) (s := xenium_realize s0); [| | assumption].
    - intros x x' [addr | addr val] Hx Hstep.
      + apply access_step_read in Hstep. subst x'. assumption.
      + apply (write_led_range x x' addr val access_size); assumption.
    - destruct (realize_bank_control s0) as [_ ->]. lia. }
  assert (Hb : 0 <= bank_control s < 16).
  { apply (run_nibble l (xenium_realize s0) s); [| assumption].
    destruct (realize_bank_control s0) as [-> _]. lia. }
  split; [assumption |].
  unfold state_in_range.
  change (2 ^ 8) with 256. change (2 ^ 16) with 65536. lia.
Qed.

Lemma write_keeps_inputs (s s' : XeniumState) (addr val size : Z) :
  xenium_io_write s addr val size = Return s' ->
  recovery s' = recovery s /\ miso_1 s' = miso_1 s /\
  miso_4 s' = miso_4 s /\ dev s' = dev s /\ io s' = io s.
Proof.
  unfold xenium_io_write.
  destruct addr as [| [p | p |] | p]; try discriminate.
  - destruct (Z.shiftr val 3 =? 0); [| discriminate].
    intros H. injection H as <-. repeat split.
  - destruct (Z.land val (Z.shiftl 1 7) =? 0); [| discriminate].
    intros H. injection H as <-. repeat split.
Qed.

Lemma realize_inputs (s : XeniumState) :
  recovery (xenium_realize s) = true /\
  miso_1 (xenium_realize s) = miso_1 s /\
  miso_4 (xenium_realize s) = miso_4 s.
Proof.
  unfold xenium_realize. cbn [dev io].
  destruct (isa_register_ioport _ _ _) as [dev2 io2].
  repeat split.
Qed.

(** X6: bus traffic never changes the read-only side of the device: after
    xenium_realize and any sequence of reads and accepted writes, recovery
    is still set, miso_1, miso_4 and the framework members are as realize
    left them, and every read of register 1 therefore has bit 7 set. *)
Theorem reachable_inputs_fixed
  (s0 s : XeniumState) (l : list access) (size : Z) :
  run l (xenium_realize s0) = Return s ->
  recovery s = true /\
  miso_1 s = miso_1 s0 /\ miso_4 s = miso_4 s0 /\
  dev s = dev (xenium_realize s0) /\ io s = io (xenium_realize s0) /\
  exists v,
    xenium_io_read s XENIUM_REGISTER1 size = Return v /\
    Z.testbit v 7 = true.
Proof.
  intros Hrun.
  pose (sR := xenium_realize s0).
  assert (Hin : recovery s = recovery sR /\ miso_1 s = miso_1 sR /\
                miso_4 s = miso_4 sR /\ dev s = dev sR /\ io s = io sR).
  { apply (run_invariant
             (fun x => recovery x = recovery sR /\ miso_1 x = miso_1 sR /\
                       miso_4 x = miso_4 sR /\ dev x = dev sR /\
                       io x = io sR))
      with (l := l) (s := sR); [| repeat split | assumption].
    intros x x' [addr | addr val] Hx Hstep.
    - apply access_step_read in Hstep. subst x'. assumption.
    - simpl in Hstep. apply write_keeps_inputs in Hstep.
      destruct Hx as [X1 [X2 [X3 [X4 X5]]]].
      destruct Hstep as [W1 [W2 [W3 [W4 W5]]]].
      repeat split; congruence. }
  destruct Hin as [Hrec [Hm1 [Hm4 [Hdev Hio]]]].
  destruct (realize_inputs s0) as [Rrec [Rm1 Rm4]].
  fold sR in Rrec, Rm1, Rm4.
  assert (Hb : 0 <= bank_control s < 16).
  { apply (run_nibble l sR s); [| assumption].
    unfold sR. destruct (realize_bank_control s0) as [-> _]. lia. }
  split; [congruence |].
  split; [congruence |].
  split; [congruence |].
  split; [assumption |].
  split; [assumption |].
  exists (status_byte s). split.
  - apply read_register1_status. lia.
  - unfold status_byte. rewrite !Z.lor_spec.
    replace (recovery s) with true by congruence.
    reflexivity.
Qed.

(** X7: what an accepted write of val to register 1 gives back on the next
    read of register 1: the low four bits are val & 0xF, bits 7, 5 and 4
    are recovery, miso_1 and miso_4 of the device, and bit 6 is zero; the
    three SPI bits of the written value are not echoed. *)
Theorem write_read_register1
  (s s' : XeniumState) (val size size' : Z) :
  xenium_io_write s XENIUM_REGISTER1 val size = Return s' ->
  xenium_io_read s' XENIUM_REGISTER1 size' =
  Return (128 * of_bool (recovery s) + 32 * of_bool (miso_1 s)
          + 16 * of_bool (miso_4 s) + Z.land val 0xF).
Proof.
  intros Hw.
  assert (Hbank : bank_control s' = Z.land val 0xF).
  { unfold xenium_io_write, XENIUM_REGISTER1 in Hw.
    destruct (Z.land val (Z.shiftl 1 7) =? 0); [| discriminate Hw].
    injection Hw as <-. cbn [bank_control]. apply u16_low_nibble. }
  destruct (write_keeps_inputs s s' _ _ _ Hw) as [Hrec [Hm1 [Hm4 _]]].
  pose proof (low_nibble_range val) as Hn.
  rewrite read_register1_status by lia.
  destruct (status_byte_nibble s') as [Hsum _]; [lia |].
  rewrite Hsum, Hrec, Hm1, Hm4, Hbank. reflexivity.
Qed.

(** X8: the last write to a register wins: after an accepted write to
    register 1 (register 0), a second write to the same register has the
    outcome it would have had without the first. *)
Theorem write_overwrites_same_register
  (s s1 : XeniumState) (v1 v2 size : Z) :
  (xenium_io_write s XENIUM_REGISTER1 v1 size = Return s1 ->
   xenium_io_write s1 XENIUM_REGISTER1 v2 size
   = xenium_io_write s XENIUM_REGISTER1 v2 size) /\
  (xenium_io_write s XENIUM_REGISTER0 v1 size = Return s1 ->
   xenium_io_write s1 XENIUM_REGISTER0 v2 size
   = xenium_io_write s XENIUM_REGISTER0 v2 size).
Proof.
  unfold xenium_io_write, XENIUM_REGISTER1, XENIUM_REGISTER0. split.
  - destruct (Z.land v1 (Z.shiftl 1 7) =? 0); [| discriminate].
    intros H. injection H as <-. reflexivity.
  - destruct (Z.shiftr v1 3 =? 0); [| discriminate].
    intros H. injection H as <-. reflexivity.
Qed.

(** X9: the two registers are independent: an accepted write to register 0
    followed by an accepted write to register 1 leaves the device in the
    state the two writes reach in the other order, and both are accepted
    in that order too. *)
Theorem writes_to_distinct_registers_commute
  (s sa sab : XeniumState) (a b size : Z) :
  xenium_io_write s XENIUM_REGISTER0 a size = Return sa ->
  xenium_io_write sa XENIUM_REGISTER1 b size = Return sab ->
  exists sb,
    xenium_io_write s XENIUM_REGISTER1 b size = Return sb /\
    xenium_io_write sb XENIUM_REGISTER0 a size = Return sab.
Proof.
  unfold xenium_io_write, XENIUM_REGISTER1, XENIUM_REGISTER0.
  destruct (Z.shiftr a 3 =? 0); [| discriminate].
  intros Ha. injection Ha as <-.
  destruct (Z.land b (Z.shiftl 1 7) =? 0); [| discriminate].
  intros Hb. injection Hb as <-.
  eexists. split; reflexivity.
Qed.

End Properties.

(** ** The properties on the concrete device *)

Lemma mask_flash_address_drops_translation_witness :
  Flash.mask_translation 0x03FFFF "110" = Some 0x1BFFFF /\
  Flash.xenium_mask_flash_address 0x03FFFF "110" = NoValue.
Proof.
  destruct (mask_flash_address_drops_translation 0x03FFFF "110") as [_ H].
  - lia.
  - reflexivity.
  - split; [reflexivity | exact H].
Defined.

Lemma translate_flash_address_no_value_witness :
  Flash.bank_pattern 1 = Some "110"%string /\
  Flash.mask_translation 0x03FFFF "110" = Some 0x1BFFFF /\
  Flash.xenium_translate_flash_address 0x03FFFF 1 = NoValue.
Proof.
  destruct (translate_flash_address_no_value 0x03FFFF 1) as [_ H].
  - lia.
  - lia.
  - split; [reflexivity | split; [reflexivity | exact H]].
Defined.

Lemma translate_undefined_bank_aborts_witness :
  Flash.xenium_translate_flash_address 0x03FFFF 11 = Abort.
Proof.
  apply (translate_undefined_bank_aborts 0x03FFFF 11). lia.
Defined.

Lemma write_register0_led_witness :
  (exists s', xenium_io_write Board.attached XENIUM_REGISTER0 5 1 = Return s'
              /\ led s' = 5) /\
  xenium_io_write Board.attached XENIUM_REGISTER0 0x0D 1 = Abort.
Proof.
  split.
  - destruct (write_register0_led Board.attached 5 1) as [[_ H] _].
    + lia.
    + apply H. reflexivity.
  - destruct (write_register0_led Board.attached 0x0D 1) as [_ H].
    + lia.
    + apply H. reflexivity.
Defined.

Lemma write_register1_fields_witness :
  exists s',
    xenium_io_write Board.attached XENIUM_REGISTER1 0x7B 1 = Return s' /\
    sck s' = true /\ cs s' = true /\ mosi s' = true /\
    bank_control s' = 11 /\
    Flash.xenium_translate_flash_address 0x03FFFF (bank_control s') = Abort.
Proof.
  destruct (write_register1_fields Board.attached 0x7B 1) as [_ H].
  - lia.
  - destruct (H eq_refl) as [s' [Hw [Hsck [Hcs [Hmosi [Hbank Hlazy]]]]]].
    exists s'. repeat split; try assumption.
    apply Hlazy. simpl. lia.
Defined.

Lemma read_register1_composition_witness :
  xenium_io_read Board.attached XENIUM_REGISTER1 1 = Return 0x81 /\
  xenium_io_read
    (mkXeniumState tt tt true false true false false 1 5 true)
    XENIUM_REGISTER1 1 = Return 0x85.
Proof.
  destruct (read_register1_composition Board.attached 1) as [Hread Hfive].
  - repeat split; vm_compute; (reflexivity || discriminate).
  - split.
    + exact Hread.
    + apply (Hfive 0x55); reflexivity.
Defined.

Lemma write_frame_witness :
  (led Board.selected = led Board.attached /\
   recovery Board.selected = recovery Board.attached) /\
  (bank_control Board.after_traffic = bank_control Board.selected /\
   sck Board.after_traffic = sck Board.selected).
Proof.
  split.
  - destruct (write_frame Board.attached Board.selected 0x7B 1) as [H1 _].
    destruct (H1 eq_refl) as [Hled [Hrec _]].
    split; [exact Hled | exact Hrec].
  - destruct (write_frame Board.selected Board.after_traffic 7 1) as [_ H0].
    destruct (H0 eq_refl) as [Hsck [_ [_ [_ [_ [Hbank _]]]]]].
    split; [exact Hbank | exact Hsck].
Defined.

Lemma reachable_bank_control_nibble_witness :
  0 <= bank_control Board.after_traffic < 16 /\
  exists v,
    xenium_io_read Board.after_traffic XENIUM_REGISTER1 1 = Return v /\
    v = 128 * of_bool (recovery Board.after_traffic)
        + 32 * of_bool (miso_1 Board.after_traffic)
        + 16 * of_bool (miso_4 Board.after_traffic)
        + bank_control Board.after_traffic /\
    Z.land v 0xF = bank_control Board.after_traffic /\
    Z.testbit v 6 = false /\
    0 <= v < 2 ^ 8.
Proof.
  apply (reachable_bank_control_nibble Board.init_io Board.register_ioport
           Board.zeroed Board.after_traffic Board.traffic 1).
  reflexivity.
Defined.

Lemma mask_translation_idempotent_witness :
  exists t,
    Flash.mask_translation 0xFFFC0000 "01X" = Some t /\
    0 <= t < 2 ^ 32 /\
    Flash.mask_translation t "01X" = Some t.
Proof.
  apply (mask_translation_idempotent 0xFFFC0000 "01X").
  - lia.
  - reflexivity.
Defined.

Lemma unknown_register_aborts_witness :
  xenium_io_write Board.attached 2 0 1 = Abort /\
  xenium_io_read Board.attached 2 1 = Abort.
Proof.
  apply (unknown_register_aborts Board.attached 2 0 1).
  - discriminate.
  - discriminate.
Defined.

Lemma reachable_led_three_bits_witness :
  0 <= led Board.after_traffic < 8 /\ state_in_range Board.after_traffic.
Proof.
  apply (reachable_led_three_bits Board.init_io Board.register_ioport
           Board.zeroed Board.after_traffic Board.traffic).
  reflexivity.
Defined.

Lemma reachable_inputs_fixed_witness :
  recovery Board.after_traffic = true /\
  exists v,
    xenium_io_read Board.after_traffic XENIUM_REGISTER1 1 = Return v /\
    Z.testbit v 7 = true.
Proof.
  destruct (reachable_inputs_fixed Board.init_io Board.register_ioport
              Board.zeroed Board.after_traffic Board.traffic 1)
    as [Hrec [_ [_ [_ [_ Hread]]]]].
  - reflexivity.
  - split; [exact Hrec | exact Hread].
Defined.

Lemma write_read_register1_witness :
  xenium_io_read Board.selected XENIUM_REGISTER1 1 = Return 0x8B.
Proof.
  apply (write_read_register1 Board.attached Board.selected 0x7B 1 1).
  reflexivity.
Defined.

Lemma write_overwrites_same_register_witness :
  xenium_io_write Board.selected XENIUM_REGISTER1 0x05 1
  = xenium_io_write Board.attached XENIUM_REGISTER1 0x05 1.
Proof.
  destruct (write_overwrites_same_register
              Board.attached Board.selected 0x7B 0x05 1) as [H _].
  apply H. reflexivity.
Defined.

Lemma writes_to_distinct_registers_commute_witness :
  exists sb,
    xenium_io_write Board.attached XENIUM_REGISTER1 0x7B 1 = Return sb /\
    xenium_io_write sb XENIUM_REGISTER0 7 1 = Return Board.after_traffic.
Proof.
  apply (writes_to_distinct_registers_commute
           Board.attached
           (mkXeniumState tt tt false false false false false 7 1 true)
           Board.after_traffic 7 0x7B 1).
  - reflexivity.
  - reflexivity.
Defined.
